(** * create_icons.py: the Chrome-extension icon renderer

    A shallow embedding of [chrome-extension/assets/create_icons.py].
    The script draws four square RGBA icons with Pillow and saves them as
    PNG files.  The geometry ([margin], [line_width], the boxes handed to
    Pillow) is transcribed from the script; Python's
    exceptions, Pillow, and the file system and console are modelled in
    the modules [Py], [PIL] and [Sys] below. *)

From stdpp Require Import gmap strings pretty list.
From Stdlib Require Import ZArith Lia.

Local Open Scope Z_scope.

(** ** Python: exceptions, results and the world a script runs in *)

Module Py.

(** An exception is identified by the name of its class. *)
Inductive exn : Type := Exn (cls : string).

Definition ValueError : exn := Exn "ValueError".
Definition OSError : exn := Exn "OSError".
Definition SystemError : exn := Exn "SystemError".
Definition OverflowError : exn := Exn "OverflowError".
Definition MemoryError : exn := Exn "MemoryError".

(** The two classes the specification names.  Nothing in the script or in
    Pillow defines or raises them; they are here so that statements about
    them can be written down. *)
Definition InvalidSizeError : exn := Exn "InvalidSizeError".

(** The outcome of an expression that may raise. *)
Inductive result (A : Type) : Type :=
| Ok (a : A)
| Raise (e : exn).
Arguments Ok {A} a.
Arguments Raise {A} e.

Definition rbind {A B : Type} (r : result A) (k : A -> result B) : result B :=
  match r with
  | Ok a => k a
  | Raise e => Raise e
  end.

Definition is_ok {A : Type} (r : result A) : bool :=
  match r with Ok _ => true | Raise _ => false end.

End Py.

Import Py.

Declare Scope result_scope.
Delimit Scope result_scope with result.
Notation "x <- r ;; k" := (rbind r (fun x => k))
  (at level 100, r at next level, right associativity) : result_scope.

(** ** Pillow: images and the drawing primitives the script calls *)

Module PIL.

(** A pixel of an ['RGBA'] image: four 8-bit channels. *)
Definition RGBA : Type := (Z * Z * Z * Z)%type.

(** A box [[x0, y0, x1, y1]] as Pillow takes it; both corners inclusive. *)
Definition box : Type := (Z * Z * Z * Z)%type.

(** The pixel buffer is a function of the coordinates; [width] and
    [height] delimit the part of it that is the image. *)
Record Image : Type := mkImage {
  width : Z;
  height : Z;
  px : Z -> Z -> RGBA
}.

Definition alpha (c : RGBA) : Z := let '(_, _, _, a) := c in a.

(** [fill='white'] on an RGBA image. *)
Definition white : RGBA := (255, 255, 255, 255).

(** A three-channel fill on an RGBA image is fully opaque. *)
Definition ink_of_rgb (c : Z * Z * Z) : RGBA :=
  let '(r, g, b) := c in (r, g, b, 255).

(** The largest C [int]. *)
Definition INT_MAX : Z := 2147483647.

(** The widest line Pillow's storage takes: [(INT_MAX / 4) - 1] pixels. *)
Definition max_side : Z := 536870910.

(** [Image.new('RGBA', (w, h), color)].  Pillow refuses negative sizes
    with a [ValueError] and accepts zero.  The sizes go to C as [int]s, so
    a side beyond [INT_MAX] raises [OverflowError], and a line wider than
    [max_side] raises [MemoryError].  Below these limits the model lets
    the allocation succeed; how much memory the machine has is not part of
    it, and the statements that are not about a fixed size take the canvas
    as given. *)
Definition Image_new (size : Z * Z) (color : RGBA) : result Image :=
  let '(w, h) := size in
  if (w <? 0) || (h <? 0) then Raise ValueError
  else if (INT_MAX <? w) || (INT_MAX <? h) then Raise OverflowError
  else if max_side <? w then Raise MemoryError
  else Ok (mkImage w h (fun _ _ => color)).

(** [img.getpixel((x, y))]; out of range Pillow raises [IndexError]. *)
Definition getpixel (img : Image) (x y : Z) : option RGBA :=
  if (0 <=? x) && (x <? width img) && (0 <=? y) && (y <? height img)
  then Some (px img x y) else None.

(** The rows of the image, top to bottom: what the encoder writes. *)
Definition getdata (img : Image) : list (list RGBA) :=
  (fun y => (fun x => px img x y) <$> seqZ 0 (width img)) <$> seqZ 0 (height img).

(** Drawing in the image's own mode overwrites pixels (no blending):
    every covered pixel takes the ink. *)
Definition paint (cover : Z -> Z -> bool) (ink : RGBA) (img : Image) : Image :=
  mkImage (width img) (height img)
          (fun x y => if cover x y then ink else px img x y).

Definition in_box (b : box) (x y : Z) : bool :=
  let '(x0, y0, x1, y1) := b in
  (x0 <=? x) && (x <=? x1) && (y0 <=? y) && (y <=? y1).

(** Pillow's C primitives check the box they are given. *)
Definition check_box {A : Type} (b : box) (k : result A) : result A :=
  let '(x0, y0, x1, y1) := b in
  if x1 <? x0 then Raise ValueError
  else if y1 <? y0 then Raise ValueError
  else k.

(** [draw.rectangle(xy, fill)]: the filled box, both corners included. *)
Definition rectangle (img : Image) (xy : box) (fill : RGBA) : result Image :=
  check_box xy (Ok (paint (in_box xy) fill img)).

(** Position of a pixel relative to the centre of a box, in half pixels
    (the centre of a box of odd extent lies between two pixels). *)
Definition off2 (lo hi v : Z) : Z := 2 * v - (lo + hi).

(** The filled ellipse inscribed in a box, as an ideal shape: the pixels
    whose centre lies inside the curve.  Pillow rasterises the outline in
    C and takes the points nearest the curve, so on the boundary it paints
    some pixels more than this; the statements below are phrased on what a
    call painted, not on this shape, wherever the boundary matters. *)
Definition in_ellipse (b : box) (x y : Z) : bool :=
  let '(x0, y0, x1, y1) := b in
  let u := off2 x0 x1 x in
  let v := off2 y0 y1 y in
  let a := x1 - x0 in
  let c := y1 - y0 in
  in_box b x y && (u * u * (c * c) + v * v * (a * a) <=? a * a * (c * c)).

(** Angles run clockwise from three o'clock (y grows downwards).  The
    quadrant that starts at angle [q], for [q] one of 0, 90, 180, 270. *)
Definition in_quadrant (q : Z) (u v : Z) : bool :=
  if q =? 0 then (0 <=? u) && (0 <=? v)
  else if q =? 90 then (u <=? 0) && (0 <=? v)
  else if q =? 180 then (u <=? 0) && (v <=? 0)
  else (0 <=? u) && (v <=? 0).

(** Whether the sector from [start] to [stop] (multiples of 90) holds the
    quadrant starting at [q]. *)
Definition sector_has (start stop q : Z) : bool :=
  (q - start) mod 360 <? (stop - start) mod 360.

Definition in_sector (start stop : Z) (u v : Z) : bool :=
  existsb (fun q => sector_has start stop q && in_quadrant q u v)
          [0; 90; 180; 270].

(** [draw_pieslice(box, start, stop, fill)]: the part of the inscribed
    ellipse between the two angles.  Pillow rasterises the arc in C; the
    model takes the pixels of the sector that satisfy the ellipse
    inequality. *)
Definition in_pieslice (b : box) (start stop : Z) (x y : Z) : bool :=
  let '(x0, y0, x1, y1) := b in
  in_ellipse b x y && in_sector start stop (off2 x0 x1 x) (off2 y0 y1 y).

Definition pieslice (img : Image) (xy : box) (start stop : Z) (fill : RGBA)
  : result Image :=
  check_box xy (Ok (paint (in_pieslice xy start stop) fill img)).

Definition ellipse (img : Image) (xy : box) (fill : RGBA) : result Image :=
  check_box xy (Ok (paint (in_ellipse xy) fill img)).

Local Open Scope result_scope.

(** The pie slices of [rounded_rectangle]'s [draw_corners], in the order
    Pillow draws them. *)
Definition corner_parts (full_x full_y : bool) (x0 y0 x1 y1 d : Z)
  : list (box * Z * Z) :=
  if full_x then
    [ ((x0, y0, x0 + d, y0 + d), 180, 360);
      ((x0, y1 - d, x0 + d, y1), 0, 180) ]
  else if full_y then
    [ ((x1 - d, y0, x1, y0 + d), 270, 90);
      ((x0, y0, x0 + d, y0 + d), 90, 270) ]
  else
    [ ((x0, y0, x0 + d, y0 + d), 180, 270);
      ((x1 - d, y0, x1, y0 + d), 270, 360);
      ((x1 - d, y1 - d, x1, y1), 0, 90);
      ((x0, y1 - d, x0 + d, y1), 90, 180) ].

Fixpoint draw_corners (img : Image) (parts : list (box * Z * Z)) (fill : RGBA)
  : result Image :=
  match parts with
  | [] => Ok img
  | (b, start, stop) :: rest =>
      img <- pieslice img b start stop fill ;;
      draw_corners img rest fill
  end.

(** [draw.rounded_rectangle(xy, radius, fill)], after Pillow's
    [ImageDraw.rounded_rectangle] with all four corners rounded: a circle
    when the corners meet on both axes, a plain rectangle when the radius
    is 0, otherwise the corner slices and the rectangles between them. *)
Definition rounded_rectangle (img : Image) (xy : box) (radius : Z) (fill : RGBA)
  : result Image :=
  let '(x0, y0, x1, y1) := xy in
  if x1 <? x0 then Raise ValueError
  else if y1 <? y0 then Raise ValueError
  else
    let d := radius * 2 in
    let full_x := x1 - x0 - 1 <=? d in
    let d := if full_x then x1 - x0 else d in
    let full_y := y1 - y0 - 1 <=? d in
    let d := if full_y then y1 - y0 else d in
    if full_x && full_y then ellipse img xy fill
    else if d =? 0 then rectangle img xy fill
    else
      let r := d / 2 in
      img <- draw_corners img (corner_parts full_x full_y x0 y0 x1 y1 d) fill ;;
      img <- (if full_x
              then rectangle img (x0, y0 + r + 1, x1, y1 - r - 1) fill
              else rectangle img (x0 + r + 1, y0, x1 - r - 1, y1) fill) ;;
      if negb full_x && negb full_y then
        img <- rectangle img (x0, y0 + r + 1, x0 + r, y1 - r - 1) fill ;;
        rectangle img (x1 - r, y0 + r + 1, x1, y1 - r - 1) fill
      else Ok img.

(** The pixels of a stroke from [(x0, y0)] to [(x1, y1)] of thickness [w],
    as an ideal band: those whose foot on the line falls on the segment
    and whose distance from the line is at most [w / 2].  A segment of
    length 0 is one point.  For a stroke of width 1 at 45 degrees these are
    exactly the pixels of the diagonal.  For a wider stroke Pillow fills a
    polygon about the segment of half-width [(w - 1) / 2], rounded to
    whole pixels: it holds the pixels of the segment and is no wider than
    this band. *)
Definition in_line (seg : box) (w : Z) (x y : Z) : bool :=
  let '(x0, y0, x1, y1) := seg in
  let dx := x1 - x0 in
  let dy := y1 - y0 in
  if (dx =? 0) && (dy =? 0) then (x =? x0) && (y =? y0)
  else
    let a := x - x0 in
    let b := y - y0 in
    let t := a * dx + b * dy in
    let c := a * dy - b * dx in
    let l2 := dx * dx + dy * dy in
    (0 <=? t) && (t <=? l2) && (4 * (c * c) <=? w * w * l2).

(** [draw.line(xy, fill, width)] never raises. *)
Definition line (img : Image) (xy : box) (fill : RGBA) (w : Z) : result Image :=
  Ok (paint (in_line xy w) fill img).

End PIL.

Import PIL.

(** ** The world: files, console *)

Module Sys.

(** What a path holds after the script touched it: an encoded image, or
    the remains of a write that failed after the file was opened. *)
Inductive file : Type :=
| PNG (img : Image)
| Partial.

(** The file system as the script sees it, and the lines printed so far.
    [writable] says which paths [open(path, 'w+b')] accepts; on a real
    system no path with a NUL character is among them. *)
Record World : Type := mkWorld {
  files : gmap string file;
  writable : string -> bool;
  stdout : list string
}.

(** A statement: it may raise, and it leaves a world behind either way. *)
Definition M (A : Type) : Type := World -> result A * World.

Definition ret {A : Type} (a : A) : M A := fun w => (Ok a, w).

Definition bind {A B : Type} (m : M A) (k : A -> M B) : M B :=
  fun w =>
    match m w with
    | (Ok a, w') => k a w'
    | (Raise e, w') => (Raise e, w')
    end.

(** An expression without side effects, used as a statement. *)
Definition lift {A : Type} (r : result A) : M A := fun w => (r, w).

(** [for x in l: body(x)] *)
Fixpoint for_ {A : Type} (l : list A) (body : A -> M unit) : M unit :=
  match l with
  | [] => ret tt
  | x :: rest => bind (body x) (fun _ => for_ rest body)
  end.

(** [print(s)] *)
Definition print (s : string) : M unit :=
  fun w => (Ok tt, mkWorld (files w) (writable w) (stdout w ++ [s])).

(** Whether a path holds a NUL character. *)
Fixpoint has_nul (s : string) : bool :=
  match s with
  | EmptyString => false
  | String a rest => Ascii.eqb a Ascii.zero || has_nul rest
  end.

(** What [open(path, 'w+b')] raises on a path it does not accept:
    [ValueError] for a path with a NUL character, [OSError] (or a subclass
    of it: [FileNotFoundError], [PermissionError], ...) otherwise. *)
Definition open_error (filename : string) : exn :=
  if has_nul filename then ValueError else OSError.

(** [img.save(filename, 'PNG')].  Pillow opens the file first: on a path
    that cannot be opened the exception of [open] comes through and
    nothing is created.  The PNG encoder refuses an image without pixels
    with a [SystemError]; Pillow then removes the file if the call created
    it and leaves a file that was there before cut short.  A write that
    fails once the file is open (a full disk) is not modelled: on a path
    [open] accepts, an image with pixels is written whole. *)
Definition save (img : Image) (filename : string) : M unit :=
  fun w =>
    if writable w filename then
      if (width img =? 0) || (height img =? 0) then
        (Raise SystemError,
          match files w !! filename with
          | Some _ => mkWorld (<[filename := Partial]> (files w)) (writable w) (stdout w)
          | None => w
          end)
      else
        (Ok tt, mkWorld (<[filename := PNG img]> (files w)) (writable w) (stdout w))
    else (Raise (open_error filename), w).

End Sys.

Import Sys.

Declare Scope stmt_scope.
Delimit Scope stmt_scope with stmt.
Notation "x <- m ;; k" := (bind m (fun x => k))
  (at level 100, m at next level, right associativity) : stmt_scope.
Notation "m ;;; k" := (bind m (fun _ => k))
  (at level 100, right associativity) : stmt_scope.

(** ** The script *)

(** [str(n)] inside an f-string. *)
Definition str (n : Z) : string := pretty n.

(** *** Geometry of [create_icon], as the script computes it

    [//] on a positive divisor is [Z.div]. *)

Definition bg_color : Z * Z * Z := (102, 126, 234).

Definition margin (size : Z) : Z := size / 8.
Definition radius (size : Z) : Z := size / 6.
Definition line_width (size : Z) : Z := Z.max 1 (size / 16).
Definition grid_margin (size : Z) : Z := size / 4.
Definition center (size : Z) : Z := size / 2.
Definition x_size (size : Z) : Z := size / 8.
Definition x_center_x (size : Z) : Z := center size + size / 8.
Definition x_center_y (size : Z) : Z := center size - size / 8.

(** The coordinate lists handed to the five drawing calls. *)
Definition panel_box (size : Z) : box :=
  (margin size, margin size, size - margin size, size - margin size).

Definition vbar_box (size : Z) : box :=
  (center size - line_width size / 2, grid_margin size,
   center size + line_width size / 2, size - grid_margin size).

Definition hbar_box (size : Z) : box :=
  (grid_margin size, center size - line_width size / 2,
   size - grid_margin size, center size + line_width size / 2).

Definition x_line1 (size : Z) : box :=
  (x_center_x size - x_size size, x_center_y size - x_size size,
   x_center_x size + x_size size, x_center_y size + x_size size).

Definition x_line2 (size : Z) : box :=
  (x_center_x size - x_size size, x_center_y size + x_size size,
   x_center_x size + x_size size, x_center_y size - x_size size).

(** Lines 11 to 41 of the script: the image in memory, before it is
    saved. *)
Definition render (size : Z) : result Image :=
  (img <- Image_new (size, size) (0, 0, 0, 0) ;;
   img <- rounded_rectangle img (panel_box size) (radius size) (ink_of_rgb bg_color) ;;
   img <- rectangle img (vbar_box size) white ;;
   img <- rectangle img (hbar_box size) white ;;
   img <- line img (x_line1 size) white (line_width size) ;;
   line img (x_line2 size) white (line_width size))%result.

(** The f-string of line 45. *)
Definition created (filename : string) (size : Z) : string :=
  "Created " +:+ filename +:+ " (" +:+ str size +:+ "x" +:+ str size +:+ ")".

(** The f-string of line 52. *)
Definition icon_name (size : Z) : string := "icon" +:+ str size +:+ ".png".

Definition create_icon (size : Z) (filename : string) : M unit :=
  (img <- lift (render size) ;;
   save img filename ;;;
   print (created filename size))%stmt.

Definition sizes : list Z := [16; 32; 48; 128].

Definition main : M unit :=
  (for_ sizes (fun size =>
     let filename := icon_name size in
     create_icon size filename) ;;;
   print "All icons created successfully!")%stmt.

(** One turn of the loop of [main] (lines 52 and 53). *)
Definition make_icon (size : Z) : M unit :=
  let filename := icon_name size in
  create_icon size filename.

(** A world with no files in which every path can be written. *)
Definition empty_world : World := mkWorld ∅ (fun _ => true) [].

(** *** What the drawing calls cover

    The pixels a call paints, as boolean predicates; the lemmas below tie
    them to the calls themselves. *)

Definition in_parts (parts : list (box * Z * Z)) (x y : Z) : bool :=
  existsb (fun '(b, start, stop) => in_pieslice b start stop x y) parts.

(** The pixels painted by [rounded_rectangle]. *)
Definition in_rounded_rectangle (xy : box) (radius : Z) (x y : Z) : bool :=
  let '(x0, y0, x1, y1) := xy in
  let d := radius * 2 in
  let full_x := x1 - x0 - 1 <=? d in
  let d := if full_x then x1 - x0 else d in
  let full_y := y1 - y0 - 1 <=? d in
  let d := if full_y then y1 - y0 else d in
  if full_x && full_y then in_ellipse xy x y
  else if d =? 0 then in_box xy x y
  else
    let r := d / 2 in
    in_parts (corner_parts full_x full_y x0 y0 x1 y1 d) x y
    || (if full_x
        then in_box (x0, y0 + r + 1, x1, y1 - r - 1) x y
        else in_box (x0 + r + 1, y0, x1 - r - 1, y1) x y)
    || (negb full_x && negb full_y
        && (in_box (x0, y0 + r + 1, x0 + r, y1 - r - 1) x y
            || in_box (x1 - r, y0 + r + 1, x1, y1 - r - 1) x y)).

(** The panel of the icon of a given size. *)
Definition in_panel (size : Z) (x y : Z) : bool :=
  in_rounded_rectangle (panel_box size) (radius size) x y.

(** The pixels painted white: the two bars and the two strokes. *)
Definition in_white (size : Z) (x y : Z) : bool :=
  in_box (vbar_box size) x y
  || in_box (hbar_box size) x y
  || in_line (x_line1 size) (line_width size) x y
  || in_line (x_line2 size) (line_width size) x y.

(** The pixel of the finished icon at [(x, y)]. *)
Definition icon_px (size : Z) (x y : Z) : RGBA :=
  if in_white size x y then white
  else if in_panel size x y then ink_of_rgb bg_color
  else (0, 0, 0, 0).

Definition coords (b : box) : list Z :=
  let '(x0, y0, x1, y1) := b in [x0; y0; x1; y1].

(** Every coordinate the script hands to a drawing call. *)
Definition shape_coords (size : Z) : list Z :=
  coords (panel_box size) ++ coords (vbar_box size) ++ coords (hbar_box size)
  ++ coords (x_line1 size) ++ coords (x_line2 size).

(** A box grown by [w] on every side. *)
Definition grow (w : Z) (b : box) : box :=
  let '(x0, y0, x1, y1) := b in
  (Z.min x0 x1 - w, Z.min y0 y1 - w, Z.max x0 x1 + w, Z.max y0 y1 + w).

Definition box_within (inner outer : box) : bool :=
  let '(x0, y0, x1, y1) := inner in
  in_box outer x0 y0 && in_box outer x1 y1.

(** An image [img'] is [img] with the pixels of [cover] set to [fill]. *)
Definition painted (img img' : Image) (fill : RGBA) (cover : Z -> Z -> bool)
  : Prop :=
  width img' = width img /\ height img' = height img /\
  (forall x y, px img' x y = if cover x y then fill else px img x y).

(** The boxes that bound the white shapes: the bars themselves and the
    strokes grown by their thickness. *)
Definition white_boxes (size : Z) : list box :=
  [ vbar_box size; hbar_box size;
    grow (line_width size) (x_line1 size);
    grow (line_width size) (x_line2 size) ].

(** Every pixel of the panel's bounding box that is white is a pixel of
    the panel. *)
Definition white_on_panel (size : Z) : bool :=
  let m := margin size in
  let n := size - m - m + 1 in
  forallb (fun x =>
    forallb (fun y => implb (in_white size x y) (in_panel size x y))
            (seqZ m n))
          (seqZ m n).


(** A world that already holds a file and has printed a line, in which
    only [b.png] can be written. *)
Definition other_world : World :=
  mkWorld {[ "old.txt" := Partial ]} (fun p => String.eqb p "b.png") ["hello"].

(** A world without files in which only [icon16.png] can be written. *)
Definition one_icon_world : World :=
  mkWorld ∅ (fun p => String.eqb p "icon16.png") [].

(** The line [create_icon] prints for the icon of a size. *)
Definition created_icon (size : Z) : string := created (icon_name size) size.

(** * Properties *)

(** ** The drawing primitives *)

Section Primitives.

Variables (img img' : Image) (fill : RGBA).

Lemma check_box_Ok {A : Type} (b : box) (k : result A) (a : A) :
  check_box b k = Ok a ->
  k = Ok a /\ let '(x0, y0, x1, y1) := b in x0 <= x1 /\ y0 <= y1.
Proof.
  destruct b as [[[x0 y0] x1] y1]; unfold check_box.
  destruct (Z.ltb_spec x1 x0); [discriminate|].
  destruct (Z.ltb_spec y1 y0); [discriminate|].
  auto.
Qed.

Lemma check_box_valid {A : Type} (x0 y0 x1 y1 : Z) (k : result A) :
  x0 <= x1 -> y0 <= y1 -> check_box (x0, y0, x1, y1) k = k.
Proof.
  intros Hx Hy; unfold check_box.
  destruct (Z.ltb_spec x1 x0); [lia|].
  destruct (Z.ltb_spec y1 y0); [lia|]. reflexivity.
Qed.

Lemma rectangle_painted (xy : box) :
  rectangle img xy fill = Ok img' -> painted img img' fill (in_box xy).
Proof.
  unfold rectangle; intros H.
  apply check_box_Ok in H as [H _]; injection H as H.
  unfold painted; rewrite <- H; simpl; auto.
Qed.

Lemma ellipse_painted (xy : box) :
  ellipse img xy fill = Ok img' -> painted img img' fill (in_ellipse xy).
Proof.
  unfold ellipse; intros H.
  apply check_box_Ok in H as [H _]; injection H as H.
  unfold painted; rewrite <- H; simpl; auto.
Qed.

Lemma pieslice_painted (xy : box) (start stop : Z) :
  pieslice img xy start stop fill = Ok img' ->
  painted img img' fill (in_pieslice xy start stop).
Proof.
  unfold pieslice; intros H.
  apply check_box_Ok in H as [H _]; injection H as H.
  unfold painted; rewrite <- H; simpl; auto.
Qed.

Lemma line_painted (xy : box) (w : Z) :
  line img xy fill w = Ok img' -> painted img img' fill (in_line xy w).
Proof.
  unfold line; intros H; injection H as H.
  unfold painted; rewrite <- H; simpl; auto.
Qed.

End Primitives.

(** What [Image.new] returns when it returns. *)
Lemma Image_new_Ok (w h : Z) (color : RGBA) (img : Image) :
  Image_new (w, h) color = Ok img ->
  img = mkImage w h (fun _ _ => color) /\
  0 <= w <= 536870910 /\ 0 <= h <= 2147483647.
Proof.
  unfold Image_new, INT_MAX, max_side.
  destruct (Z.ltb_spec w 0); [discriminate|].
  destruct (Z.ltb_spec h 0); [discriminate|].
  destruct (Z.ltb_spec 2147483647 w); [discriminate|].
  destruct (Z.ltb_spec 2147483647 h); [discriminate|].
  destruct (Z.ltb_spec 536870910 w); [discriminate|].
  cbn. intros [= <-]. repeat split; lia.
Qed.

Lemma Image_new_square (size : Z) (color : RGBA) :
  0 <= size <= 536870910 ->
  Image_new (size, size) color = Ok (mkImage size size (fun _ _ => color)).
Proof.
  intros Hs. unfold Image_new, INT_MAX, max_side.
  destruct (Z.ltb_spec size 0); [lia|].
  destruct (Z.ltb_spec 2147483647 size); [lia|].
  destruct (Z.ltb_spec 536870910 size); [lia|]. reflexivity.
Qed.

Lemma rbind_Ok {A B : Type} (r : result A) (k : A -> result B) (b : B) :
  rbind r k = Ok b -> exists a, r = Ok a /\ k a = Ok b.
Proof.
  destruct r as [a|e]; simpl; [eauto | discriminate].
Qed.

Lemma painted_refl (img : Image) (fill : RGBA) :
  painted img img fill (fun _ _ => false).
Proof. by repeat split. Qed.

Lemma painted_trans (a b c : Image) (fill : RGBA) (c1 c2 : Z -> Z -> bool) :
  painted a b fill c1 -> painted b c fill c2 ->
  painted a c fill (fun x y => c1 x y || c2 x y).
Proof.
  intros (Hw1 & Hh1 & Hp1) (Hw2 & Hh2 & Hp2).
  repeat split; [congruence | congruence |].
  intros x y; rewrite Hp2, Hp1.
  destruct (c1 x y), (c2 x y); reflexivity.
Qed.

Lemma painted_ext (a b : Image) (fill : RGBA) (c1 c2 : Z -> Z -> bool) :
  (forall x y, c1 x y = c2 x y) -> painted a b fill c1 -> painted a b fill c2.
Proof.
  intros Heq (Hw & Hh & Hp); repeat split; [done | done |].
  intros x y; rewrite <- Heq; apply Hp.
Qed.

Lemma draw_corners_painted (parts : list (box * Z * Z)) (fill : RGBA) :
  forall img img',
    draw_corners img parts fill = Ok img' ->
    painted img img' fill (in_parts parts).
Proof.
  induction parts as [|[[b start] stop] rest IH]; intros img img' H; simpl in H.
  - injection H as <-. apply painted_refl.
  - apply rbind_Ok in H as (mid & Hp & Hrest).
    apply pieslice_painted in Hp. apply IH in Hrest.
    exact (painted_trans _ _ _ _ _ _ Hp Hrest).
Qed.

(** [rounded_rectangle] paints exactly [in_rounded_rectangle]. *)
Lemma rounded_rectangle_painted (img img' : Image) (xy : box) (r : Z) (fill : RGBA) :
  rounded_rectangle img xy r fill = Ok img' ->
  painted img img' fill (in_rounded_rectangle xy r).
Proof.
  destruct xy as [[[x0 y0] x1] y1].
  unfold rounded_rectangle, in_rounded_rectangle.
  destruct (x1 <? x0); [discriminate|].
  destruct (y1 <? y0); [discriminate|].
  set (fx := x1 - x0 - 1 <=? r * 2).
  set (d1 := if fx then x1 - x0 else r * 2).
  set (fy := y1 - y0 - 1 <=? d1).
  set (d := if fy then y1 - y0 else d1).
  destruct fx, fy; cbn [andb negb orb].
  - apply ellipse_painted.
  - destruct (d =? 0); [apply rectangle_painted|].
    intros H.
    apply rbind_Ok in H as (i1 & H1 & H).
    apply rbind_Ok in H as (i2 & H2 & H).
    injection H as <-.
    apply draw_corners_painted in H1. apply rectangle_painted in H2.
    eapply painted_ext; [|exact (painted_trans _ _ _ _ _ _ H1 H2)].
    intros x y; cbv beta. by rewrite orb_false_r.
  - destruct (d =? 0); [apply rectangle_painted|].
    intros H.
    apply rbind_Ok in H as (i1 & H1 & H).
    apply rbind_Ok in H as (i2 & H2 & H).
    injection H as <-.
    apply draw_corners_painted in H1. apply rectangle_painted in H2.
    eapply painted_ext; [|exact (painted_trans _ _ _ _ _ _ H1 H2)].
    intros x y; cbv beta. by rewrite orb_false_r.
  - destruct (d =? 0); [apply rectangle_painted|].
    intros H.
    apply rbind_Ok in H as (i1 & H1 & H).
    apply rbind_Ok in H as (i2 & H2 & H).
    apply rbind_Ok in H as (i3 & H3 & H4).
    apply draw_corners_painted in H1.
    apply rectangle_painted in H2, H3, H4.
    eapply painted_ext;
      [|exact (painted_trans _ _ _ _ _ _
                 (painted_trans _ _ _ _ _ _
                    (painted_trans _ _ _ _ _ _ H1 H2) H3) H4)].
    intros x y; cbv beta. by rewrite orb_assoc.
Qed.

(** When it returns, [render size] is the [size] x [size] image whose
    pixels are [icon_px size]. *)
Lemma render_spec (size : Z) (img : Image) :
  render size = Ok img ->
  width img = size /\ height img = size /\
  (forall x y, px img x y = icon_px size x y).
Proof.
  unfold render; intros H.
  apply rbind_Ok in H as (i0 & H0 & H).
  apply rbind_Ok in H as (i1 & H1 & H).
  apply rbind_Ok in H as (i2 & H2 & H).
  apply rbind_Ok in H as (i3 & H3 & H).
  apply rbind_Ok in H as (i4 & H4 & H5).
  apply Image_new_Ok in H0 as [-> _].
  apply rounded_rectangle_painted in H1 as (W1 & Hh1 & P1).
  apply rectangle_painted in H2 as (W2 & Hh2 & P2).
  apply rectangle_painted in H3 as (W3 & Hh3 & P3).
  apply line_painted in H4 as (W4 & Hh4 & P4).
  apply line_painted in H5 as (W5 & Hh5 & P5).
  cbn [width height px] in *.
  repeat split; [congruence | congruence |].
  intros x y. rewrite P5, P4, P3, P2, P1.
  unfold icon_px, in_white, in_panel.
  destruct (in_line (x_line2 size) (line_width size) x y),
           (in_line (x_line1 size) (line_width size) x y),
           (in_box (hbar_box size) x y),
           (in_box (vbar_box size) x y); reflexivity.
Qed.

(** ** The drawing calls do not raise on well-formed boxes *)

Ltac box_ok :=
  rewrite check_box_valid by (Z.div_mod_to_equations; lia); cbn [rbind].

Lemma rounded_rectangle_ok (img : Image) (x0 y0 x1 y1 r : Z) (fill : RGBA) :
  0 <= r -> x0 <= x1 -> y0 <= y1 ->
  exists img', rounded_rectangle img (x0, y0, x1, y1) r fill = Ok img'.
Proof.
  intros Hr Hx Hy. unfold rounded_rectangle.
  destruct (Z.ltb_spec x1 x0); [lia|].
  destruct (Z.ltb_spec y1 y0); [lia|].
  destruct (Z.leb_spec (x1 - x0 - 1) (r * 2)) as [Hfx|Hfx];
    cbn [andb negb];
    [ destruct (Z.leb_spec (y1 - y0 - 1) (x1 - x0)) as [Hfy|Hfy]
    | destruct (Z.leb_spec (y1 - y0 - 1) (r * 2)) as [Hfy|Hfy] ];
    cbn [andb negb].
  - unfold ellipse. box_ok. eauto.
  - destruct (Z.eqb_spec (x1 - x0) 0) as [Hd|Hd].
    { unfold rectangle. box_ok. eauto. }
    unfold corner_parts, draw_corners, pieslice, rectangle.
    repeat box_ok. eauto.
  - destruct (Z.eqb_spec (y1 - y0) 0) as [Hd|Hd].
    { unfold rectangle. box_ok. eauto. }
    unfold corner_parts, draw_corners, pieslice, rectangle.
    repeat box_ok. eauto.
  - destruct (Z.eqb_spec (r * 2) 0) as [Hd|Hd].
    { unfold rectangle. box_ok. eauto. }
    unfold corner_parts, draw_corners, pieslice, rectangle.
    repeat box_ok. eauto.
Qed.

(** The geometry of a non-negative size: every coordinate is
    non-negative and every box is well formed. *)
Lemma geometry_nonneg (size : Z) :
  0 <= size ->
  0 <= margin size <= size - margin size /\
  0 <= radius size /\
  1 <= line_width size /\
  0 <= center size - line_width size / 2 /\
  0 <= grid_margin size <= size - grid_margin size /\
  0 <= x_center_x size - x_size size /\
  0 <= x_center_y size - x_size size /\
  0 <= x_size size.
Proof.
  intros H.
  unfold margin, radius, line_width, center, grid_margin,
    x_center_x, x_center_y, x_size, center.
  destruct (Z.max_spec 1 (size / 16)) as [[? ->]|[? ->]];
    Z.div_mod_to_equations; lia.
Qed.

(** On a canvas that [Image.new] returned no drawing call raises. *)
Lemma render_ok (size : Z) :
  0 <= size <= 536870910 -> exists img, render size = Ok img.
Proof.
  intros H. pose proof (geometry_nonneg size ltac:(lia)) as G.
  unfold render. rewrite Image_new_square by done. cbn [rbind].
  unfold panel_box.
  destruct (rounded_rectangle_ok
              (mkImage size size (fun _ _ => (0, 0, 0, 0)))
              (margin size) (margin size)
              (size - margin size) (size - margin size)
              (radius size) (ink_of_rgb bg_color)) as [i1 ->]; [lia..|].
  cbn [rbind]. unfold rectangle, vbar_box, hbar_box.
  rewrite check_box_valid by (Z.div_mod_to_equations; lia). cbn [rbind].
  rewrite check_box_valid by (Z.div_mod_to_equations; lia). cbn [rbind].
  unfold line. cbn [rbind]. eauto.
Qed.

Lemma render_of_canvas (size : Z) (color : RGBA) (img0 : Image) :
  Image_new (size, size) color = Ok img0 -> exists img, render size = Ok img.
Proof.
  intros H. apply Image_new_Ok in H as (_ & H & _). by apply render_ok.
Qed.

(** A negative size is refused by [Image.new]. *)
Lemma render_negative (size : Z) :
  size < 0 -> render size = Raise ValueError.
Proof.
  intros H. unfold render, Image_new.
  destruct (Z.ltb_spec size 0); [reflexivity | lia].
Qed.

(** A size beyond the C [int]s is refused by [Image.new] as well. *)
Lemma render_overflow (size : Z) :
  2147483647 < size -> render size = Raise OverflowError.
Proof.
  intros H. unfold render, Image_new, INT_MAX.
  destruct (Z.ltb_spec size 0); [lia|].
  destruct (Z.ltb_spec 2147483647 size); [reflexivity | lia].
Qed.

(** ** Where the shapes lie *)

Lemma in_box_true (x0 y0 x1 y1 x y : Z) :
  in_box (x0, y0, x1, y1) x y = true <-> x0 <= x <= x1 /\ y0 <= y <= y1.
Proof.
  unfold in_box. rewrite !andb_true_iff, !Z.leb_le. lia.
Qed.

Lemma sq_le_bound (u v : Z) : 0 <= v -> u * u <= v * v -> - v <= u <= v.
Proof. intros Hv H. nia. Qed.

Lemma sq_sum_pos (u v : Z) : u <> 0 \/ v <> 0 -> 0 < u * u + v * v.
Proof. intros [H|H]; nia. Qed.

(** Twice the offset of a pixel of a stroke from an end point is bounded
    by the extent of the segment and the thickness. *)
Lemma stroke_offset (dx dy a b w : Z) :
  0 <= w -> 0 < dx * dx + dy * dy ->
  0 <= a * dx + b * dy <= dx * dx + dy * dy ->
  4 * ((a * dy - b * dx) * (a * dy - b * dx)) <= w * w * (dx * dx + dy * dy) ->
  2 * Z.min 0 dx - w <= 2 * a <= 2 * Z.max 0 dx + w.
Proof.
  intros Hw Hl Ht Hc.
  set (l2 := dx * dx + dy * dy) in *.
  set (t := a * dx + b * dy) in *.
  set (c := a * dy - b * dx) in *.
  assert (Hid : a * l2 = t * dx + c * dy) by (unfold l2, t, c; ring).
  assert (Hdy : dy * dy <= l2) by (unfold l2; nia).
  assert (Hsq : (2 * c * dy) * (2 * c * dy) <= (w * l2) * (w * l2)).
  { transitivity (w * w * l2 * (dy * dy)).
    - replace (2 * c * dy * (2 * c * dy)) with (4 * (c * c) * (dy * dy)) by ring.
      apply Z.mul_le_mono_nonneg_r; nia.
    - replace (w * l2 * (w * l2)) with (w * w * l2 * l2) by ring.
      apply Z.mul_le_mono_nonneg_l; nia. }
  apply sq_le_bound in Hsq; [|nia].
  assert (Htd : Z.min 0 dx * l2 <= t * dx <= Z.max 0 dx * l2).
  { destruct (Z.le_ge_cases 0 dx).
    - rewrite Z.min_l, Z.max_r by lia. nia.
    - rewrite Z.min_r, Z.max_l by lia. nia. }
  split.
  - apply (Z.mul_le_mono_pos_r _ _ l2); [lia|]. nia.
  - apply (Z.mul_le_mono_pos_r _ _ l2); [lia|]. nia.
Qed.

(** A stroke stays within its thickness of the box spanned by its end
    points. *)
Lemma in_line_grow (seg : box) (w x y : Z) :
  0 <= w -> in_line seg w x y = true -> in_box (grow w seg) x y = true.
Proof.
  destruct seg as [[[x0 y0] x1] y1]. intros Hw.
  unfold in_line, grow. rewrite in_box_true.
  destruct ((x1 - x0 =? 0) && (y1 - y0 =? 0)) eqn:Hdeg.
  - rewrite andb_true_iff, !Z.eqb_eq. lia.
  - rewrite !andb_true_iff, !Z.leb_le. intros [[Ht0 Ht1] Hc].
    assert (Hl : 0 < (x1 - x0) * (x1 - x0) + (y1 - y0) * (y1 - y0)).
    { apply sq_sum_pos.
      apply andb_false_iff in Hdeg as [Hd|Hd]; apply Z.eqb_neq in Hd; auto. }
    pose proof (stroke_offset (x1 - x0) (y1 - y0) (x - x0) (y - y0) w
                  Hw Hl (conj Ht0 Ht1) Hc) as Bx.
    assert (Hl' : 0 < (y1 - y0) * (y1 - y0) + (x1 - x0) * (x1 - x0)) by lia.
    assert (Ht' : 0 <= (y - y0) * (y1 - y0) + (x - x0) * (x1 - x0)
                  <= (y1 - y0) * (y1 - y0) + (x1 - x0) * (x1 - x0)) by lia.
    assert (Hc' : 4 * (((y - y0) * (x1 - x0) - (x - x0) * (y1 - y0))
                       * ((y - y0) * (x1 - x0) - (x - x0) * (y1 - y0)))
                  <= w * w * ((y1 - y0) * (y1 - y0) + (x1 - x0) * (x1 - x0))).
    { etransitivity; [|etransitivity; [exact Hc|]]; [|apply Z.eq_le_incl; ring].
      apply Z.eq_le_incl; ring. }
    pose proof (stroke_offset (y1 - y0) (x1 - x0) (y - y0) (x - x0) w
                  Hw Hl' Ht' Hc') as By.
    lia.
Qed.

Lemma in_ellipse_box (b : box) (x y : Z) :
  in_ellipse b x y = true -> in_box b x y = true.
Proof.
  destruct b as [[[x0 y0] x1] y1]. unfold in_ellipse.
  intros H. by apply andb_true_iff in H as [H _].
Qed.

Lemma in_pieslice_box (b : box) (start stop x y : Z) :
  in_pieslice b start stop x y = true -> in_box b x y = true.
Proof.
  destruct b as [[[x0 y0] x1] y1]. unfold in_pieslice.
  intros H. apply andb_true_iff in H as [H _]. by apply in_ellipse_box.
Qed.

Ltac slices_in_box :=
  repeat match goal with
    | H : _ \/ _ |- _ => destruct H as [H|H]
    | H : in_pieslice _ _ _ _ _ = true |- _ =>
        apply in_pieslice_box, in_box_true in H
    | H : in_box _ _ _ = true |- _ => apply in_box_true in H
    | H : false = true |- _ => discriminate H
    | H : _ /\ _ |- _ => destruct H
    end.

(** Whatever [rounded_rectangle] paints lies in the box it is given. *)
Lemma in_rounded_rectangle_box (x0 y0 x1 y1 r x y : Z) :
  0 <= r -> x0 <= x1 -> y0 <= y1 ->
  in_rounded_rectangle (x0, y0, x1, y1) r x y = true ->
  in_box (x0, y0, x1, y1) x y = true.
Proof.
  intros Hr Hx Hy. unfold in_rounded_rectangle.
  destruct (Z.leb_spec (x1 - x0 - 1) (r * 2)) as [Hfx|Hfx];
    cbn [andb negb];
    [ destruct (Z.leb_spec (y1 - y0 - 1) (x1 - x0)) as [Hfy|Hfy]
    | destruct (Z.leb_spec (y1 - y0 - 1) (r * 2)) as [Hfy|Hfy] ];
    cbn [andb negb].
  - apply in_ellipse_box.
  - destruct (x1 - x0 =? 0); [done|].
    unfold corner_parts; cbn [in_parts existsb].
    rewrite !orb_true_iff. intros H. apply in_box_true.
    slices_in_box; Z.div_mod_to_equations; lia.
  - destruct (y1 - y0 =? 0); [done|].
    unfold corner_parts; cbn [in_parts existsb].
    rewrite !orb_true_iff. intros H. apply in_box_true.
    slices_in_box; Z.div_mod_to_equations; lia.
  - destruct (r * 2 =? 0); [done|].
    unfold corner_parts; cbn [in_parts existsb].
    rewrite !orb_true_iff. intros H. apply in_box_true.
    slices_in_box; Z.div_mod_to_equations; lia.
Qed.

(** The panel lies in its bounding box. *)
Lemma in_panel_box (size x y : Z) :
  0 <= size -> in_panel size x y = true -> in_box (panel_box size) x y = true.
Proof.
  intros H. pose proof (geometry_nonneg size H) as G.
  unfold in_panel, panel_box. apply in_rounded_rectangle_box; lia.
Qed.

(** ** The white shapes against the panel, on the four icon sizes *)

Lemma box_within_in_box (inner outer : box) (x y : Z) :
  box_within inner outer = true ->
  in_box inner x y = true -> in_box outer x y = true.
Proof.
  destruct inner as [[[a0 b0] a1] b1], outer as [[[x0 y0] x1] y1].
  unfold box_within. rewrite andb_true_iff, !in_box_true. lia.
Qed.

Lemma white_boxes_within (size : Z) :
  In size sizes ->
  forallb (fun b => box_within b (panel_box size)) (white_boxes size) = true.
Proof.
  intros [<-|[<-|[<-|[<-|[]]]]]; reflexivity.
Qed.

Lemma white_on_panel_sizes (size : Z) :
  In size sizes -> white_on_panel size = true.
Proof.
  intros [<-|[<-|[<-|[<-|[]]]]]; vm_compute; reflexivity.
Qed.

(** The white shapes lie in the panel's bounding box. *)
Lemma in_white_box (size x y : Z) :
  In size sizes ->
  in_white size x y = true -> in_box (panel_box size) x y = true.
Proof.
  intros Hs. pose proof (white_boxes_within size Hs) as Hb.
  unfold white_boxes in Hb; cbn [forallb] in Hb.
  rewrite !andb_true_iff in Hb. destruct Hb as (Hv & Hh & H1 & H2 & _).
  assert (Hw : 0 <= line_width size) by (unfold line_width; lia).
  unfold in_white. rewrite !orb_true_iff. intros [[[H|H]|H]|H].
  - by apply (box_within_in_box _ _ _ _ Hv).
  - by apply (box_within_in_box _ _ _ _ Hh).
  - by apply (box_within_in_box _ _ _ _ H1), in_line_grow.
  - by apply (box_within_in_box _ _ _ _ H2), in_line_grow.
Qed.

(** The white shapes lie on the panel. *)
Lemma in_white_panel (size x y : Z) :
  In size sizes ->
  in_white size x y = true -> in_panel size x y = true.
Proof.
  intros Hs Hw.
  pose proof (in_white_box size x y Hs Hw) as Hb.
  pose proof (white_on_panel_sizes size Hs) as Hall.
  unfold panel_box in Hb. apply in_box_true in Hb.
  unfold white_on_panel in Hall.
  apply Is_true_true, forallb_True in Hall.
  rewrite Forall_forall in Hall.
  specialize (Hall x). rewrite elem_of_seqZ in Hall.
  specialize (Hall ltac:(lia)).
  apply forallb_True in Hall. rewrite Forall_forall in Hall.
  specialize (Hall y). rewrite elem_of_seqZ in Hall.
  specialize (Hall ltac:(lia)).
  apply Is_true_true in Hall. rewrite Hw in Hall. exact Hall.
Qed.

Lemma sizes_nonneg (size : Z) : In size sizes -> 0 < size.
Proof. intros [<-|[<-|[<-|[<-|[]]]]]; lia. Qed.

Lemma sizes_bounded (size : Z) : In size sizes -> 0 <= size <= 536870910.
Proof. intros [<-|[<-|[<-|[<-|[]]]]]; lia. Qed.

Lemma render_sizes (size : Z) :
  In size sizes -> exists img, render size = Ok img.
Proof. intros Hs. by apply render_ok, sizes_bounded. Qed.

(** ** [create_icon] and [main] in the world *)

(** A positive size and a writable path: the icon is saved under the
    path and one line is printed. *)
Lemma create_icon_Ok (size : Z) (filename : string) (w : World) (img : Image) :
  0 < size -> render size = Ok img -> writable w filename = true ->
  create_icon size filename w =
    (Ok tt, mkWorld (<[filename := PNG img]> (files w)) (writable w)
                    (stdout w ++ [created filename size])).
Proof.
  intros Hs Hr Hw. destruct (render_spec size img Hr) as (Hwd & Hht & _).
  unfold create_icon, bind, lift, save, print. rewrite Hr, Hw, Hwd, Hht.
  destruct (Z.eqb_spec size 0); [lia|]. reflexivity.
Qed.

(** A path that cannot be opened: once the image is drawn, the exception
    of [open] comes through [save], and the world is left as it was. *)
Lemma create_icon_unwritable (size : Z) (filename : string) (w : World)
    (img : Image) :
  render size = Ok img -> writable w filename = false ->
  create_icon size filename w = (Raise (open_error filename), w).
Proof.
  intros Hr Hw. unfold create_icon, bind, lift, save. by rewrite Hr, Hw.
Qed.




(** The stages of the drawing: the canvas after each call. *)
Lemma render_stages (size : Z) (img : Image) :
  render size = Ok img ->
  exists img0 img1 img2 img3 img4,
    Image_new (size, size) (0, 0, 0, 0) = Ok img0 /\
    rounded_rectangle img0 (panel_box size) (radius size)
                      (ink_of_rgb bg_color) = Ok img1 /\
    rectangle img1 (vbar_box size) white = Ok img2 /\
    rectangle img2 (hbar_box size) white = Ok img3 /\
    line img3 (x_line1 size) white (line_width size) = Ok img4 /\
    line img4 (x_line2 size) white (line_width size) = Ok img.
Proof.
  unfold render; intros H.
  apply rbind_Ok in H as (i0 & H0 & H).
  apply rbind_Ok in H as (i1 & H1 & H).
  apply rbind_Ok in H as (i2 & H2 & H).
  apply rbind_Ok in H as (i3 & H3 & H).
  apply rbind_Ok in H as (i4 & H4 & H5).
  by exists i0, i1, i2, i3, i4.
Qed.

(** The canvas right after the panel is drawn: the panel colour on the
    pixels the call painted, the transparent colour of the fresh canvas
    elsewhere. *)
Lemma panel_stage (size : Z) (img0 img1 : Image) :
  Image_new (size, size) (0, 0, 0, 0) = Ok img0 ->
  rounded_rectangle img0 (panel_box size) (radius size)
                    (ink_of_rgb bg_color) = Ok img1 ->
  width img1 = size /\ height img1 = size /\
  (forall x y, px img1 x y = if in_panel size x y
                             then (102, 126, 234, 255) else (0, 0, 0, 0)).
Proof.
  intros H0 H1. apply Image_new_Ok in H0 as [-> _].
  apply rounded_rectangle_painted in H1 as (Hw & Hh & Hp).
  cbn [width height px] in *. repeat split; [done..|].
  intros x y. by rewrite Hp.
Qed.

(** A negative size: [Image.new] raises before anything else happens. *)
Lemma create_icon_negative (size : Z) (filename : string) (w : World) :
  size < 0 -> create_icon size filename w = (Raise ValueError, w).
Proof.
  intros Hs. unfold create_icon, bind, lift. by rewrite render_negative.
Qed.

(** Size 0 passes [Image.new] and the drawing calls; it is the PNG
    encoder that refuses the empty image. *)
Lemma create_icon_zero (filename : string) (w : World) :
  writable w filename = true ->
  is_ok (render 0) = true /\
  fst (create_icon 0 filename w) = Raise SystemError.
Proof.
  intros Hw. split; [reflexivity|].
  unfold create_icon, bind, lift, save. cbn. by rewrite Hw.
Qed.


Lemma bind_Ok {A B : Type} (m : M A) (k : A -> M B) (w w' : World) (a : A) :
  m w = (Ok a, w') -> bind m k w = k a w'.
Proof. intros H. unfold bind. by rewrite H. Qed.

Lemma bind_Ok_then {A B : Type} (m : M A) (k : A -> M B) (w w' : World)
    (a : A) (r : result B * World) :
  m w = (Ok a, w') -> k a w' = r -> bind m k w = r.
Proof. intros H <-. by apply bind_Ok. Qed.

(** * The claims *)

(** C1: for every size [s] in {16, 32, 48, 128} the image that
    [create_icon s filename] produces is exactly [s] pixels wide and [s]
    pixels high (and its pixel data has [s] rows of [s] pixels). *)
Theorem create_icon_dimensions (s : Z) (filename : string) (w : World) :
  In s sizes -> writable w filename = true ->
  exists img w',
    create_icon s filename w = (Ok tt, w') /\
    files w' !! filename = Some (PNG img) /\
    width img = s /\ height img = s /\
    length (getdata img) = Z.to_nat s /\
    Forall (fun row => length row = Z.to_nat s) (getdata img).
Proof.
  intros Hs Hw. pose proof (sizes_nonneg s Hs) as Hpos.
  destruct (render_sizes s Hs) as [img Hr].
  destruct (render_spec s img Hr) as (Hwd & Hht & _).
  eexists img, _. split; [exact (create_icon_Ok s filename w img Hpos Hr Hw)|].
  cbn [files]. rewrite lookup_insert_eq.
  repeat split; [done | done | |].
  - unfold getdata. by rewrite length_fmap, length_seqZ, Hht.
  - unfold getdata. apply Forall_fmap, Forall_forall. intros y _.
    cbn. by rewrite length_fmap, length_seqZ, Hwd.
Qed.

Lemma create_icon_dimensions_witness :
  exists img w',
    create_icon 16 "icon16.png" empty_world = (Ok tt, w') /\
    files w' !! "icon16.png" = Some (PNG img) /\
    width img = 16 /\ height img = 16 /\
    length (getdata img) = Z.to_nat 16 /\
    Forall (fun row => length row = Z.to_nat 16) (getdata img).
Proof.
  apply (create_icon_dimensions 16 "icon16.png" empty_world).
  - simpl; auto.
  - reflexivity.
Defined.



(** C3: for every size [s] in {16, 32, 48, 128} the pixel at
    [(s / 2, s / 2)] of the produced image is opaque white, because it
    lies inside the vertical grid bar: after the panel is drawn the pixel
    has the panel colour, the call that draws the vertical bar turns it
    white, and it is white in the finished image. *)
Theorem center_pixel_white (s : Z) :
  In s sizes ->
  exists img0 img1 img2 img,
    Image_new (s, s) (0, 0, 0, 0) = Ok img0 /\
    rounded_rectangle img0 (panel_box s) (radius s) (ink_of_rgb bg_color)
      = Ok img1 /\
    getpixel img1 (s / 2) (s / 2) = Some (102, 126, 234, 255) /\
    in_box (vbar_box s) (s / 2) (s / 2) = true /\
    rectangle img1 (vbar_box s) white = Ok img2 /\
    getpixel img2 (s / 2) (s / 2) = Some (255, 255, 255, 255) /\
    render s = Ok img /\
    getpixel img (s / 2) (s / 2) = Some (255, 255, 255, 255).
Proof.
  intros Hs. pose proof (sizes_nonneg s Hs) as Hpos.
  destruct (render_sizes s Hs) as [img Hr].
  destruct (render_stages s img Hr) as (i0 & i1 & i2 & _ & _ & H0 & H1 & H2 & _).
  destruct (render_spec s img Hr) as (Hwd & Hht & Hpx).
  destruct (panel_stage s i0 i1 H0 H1) as (Hw1 & Hh1 & Hp1).
  destruct (rectangle_painted i1 i2 white (vbar_box s) H2) as (Hw2 & Hh2 & Hp2).
  exists i0, i1, i2, img.
  unfold getpixel.
  rewrite Hw2, Hh2, Hw1, Hh1, Hwd, Hht, Hpx, Hp2, Hp1.
  destruct Hs as [<-|[<-|[<-|[<-|[]]]]]; repeat split; done.
Qed.

Lemma center_pixel_white_witness :
  exists img0 img1 img2 img,
    Image_new (16, 16) (0, 0, 0, 0) = Ok img0 /\
    rounded_rectangle img0 (panel_box 16) (radius 16) (ink_of_rgb bg_color)
      = Ok img1 /\
    getpixel img1 (16 / 2) (16 / 2) = Some (102, 126, 234, 255) /\
    in_box (vbar_box 16) (16 / 2) (16 / 2) = true /\
    rectangle img1 (vbar_box 16) white = Ok img2 /\
    getpixel img2 (16 / 2) (16 / 2) = Some (255, 255, 255, 255) /\
    render 16 = Ok img /\
    getpixel img (16 / 2) (16 / 2) = Some (255, 255, 255, 255).
Proof.
  apply (center_pixel_white 16). simpl; auto.
Defined.

(** C4: for every size [s] in {16, 32, 48, 128}, every coordinate the
    script computes for a shape (the panel, the two bars, the two strokes
    of the X) lies in [[0, s)]. *)
Theorem shape_coords_in_canvas (s : Z) :
  In s sizes -> Forall (fun c => 0 <= c < s) (shape_coords s).
Proof.
  intros [<-|[<-|[<-|[<-|[]]]]].
  all: match goal with
       | |- Forall _ ?l =>
           let l' := eval vm_compute in l in change l with l'
       end.
  all: repeat constructor; lia.
Qed.

Lemma shape_coords_in_canvas_witness :
  Forall (fun c => 0 <= c < 16) (shape_coords 16).
Proof.
  apply (shape_coords_in_canvas 16). simpl; auto.
Defined.

(** C5, as the specification states it, fails: not every positive size
    is drawn.  [Image.new] takes its sizes as C [int]s, and at size 2^31
    line 11 raises [OverflowError] before anything is drawn. *)
Lemma every_positive_size_counterexample :
  ~ (forall size : Z, 0 < size -> exists img, render size = Ok img).
Proof.
  intros H. destruct (H 2147483648 ltac:(lia)) as [img Hr].
  rewrite render_overflow in Hr by lia. discriminate Hr.
Qed.

(** C5, amended: for every positive size for which [Image.new] returns
    the canvas, none of the five drawing calls raises, and no coordinate
    the script computes is negative, also when [margin], [radius],
    [grid_margin] and [x_size] truncate to 0. *)
Theorem render_positive_size (size : Z) (img0 : Image) :
  0 < size ->
  Image_new (size, size) (0, 0, 0, 0) = Ok img0 ->
  (exists img1 img2 img3 img4 img,
     rounded_rectangle img0 (panel_box size) (radius size)
                       (ink_of_rgb bg_color) = Ok img1 /\
     rectangle img1 (vbar_box size) white = Ok img2 /\
     rectangle img2 (hbar_box size) white = Ok img3 /\
     line img3 (x_line1 size) white (line_width size) = Ok img4 /\
     line img4 (x_line2 size) white (line_width size) = Ok img /\
     render size = Ok img) /\
  Forall (fun c => 0 <= c) (shape_coords size) /\
  0 <= margin size /\ 0 <= radius size /\ 0 <= grid_margin size /\
  0 <= x_size size /\ 1 <= line_width size.
Proof.
  intros Hs H0. pose proof (geometry_nonneg size ltac:(lia)) as G.
  split.
  { destruct (render_of_canvas size _ img0 H0) as [img Hr].
    destruct (render_stages size img Hr)
      as (i0 & i1 & i2 & i3 & i4 & H0' & H1 & H2 & H3 & H4 & H5).
    assert (i0 = img0) as -> by congruence.
    by exists i1, i2, i3, i4, img. }
  split; [|lia].
  assert (Hh : 0 <= line_width size / 2) by (apply Z.div_pos; lia).
  unfold shape_coords, coords, panel_box, vbar_box, hbar_box, x_line1, x_line2.
  cbn [app].
  assert (Hc : 0 <= center size) by (unfold center; apply Z.div_pos; lia).
  assert (Hx : 0 <= x_center_x size /\ 0 <= x_center_y size)
    by (unfold x_center_x, x_center_y, x_size in *; lia).
  repeat constructor; lia.
Qed.

Lemma render_positive_size_witness :
  (exists img1 img2 img3 img4 img,
     rounded_rectangle (mkImage 1 1 (fun _ _ => (0, 0, 0, 0)))
                       (panel_box 1) (radius 1)
                       (ink_of_rgb bg_color) = Ok img1 /\
     rectangle img1 (vbar_box 1) white = Ok img2 /\
     rectangle img2 (hbar_box 1) white = Ok img3 /\
     line img3 (x_line1 1) white (line_width 1) = Ok img4 /\
     line img4 (x_line2 1) white (line_width 1) = Ok img /\
     render 1 = Ok img) /\
  Forall (fun c => 0 <= c) (shape_coords 1) /\
  0 <= margin 1 /\ 0 <= radius 1 /\ 0 <= grid_margin 1 /\
  0 <= x_size 1 /\ 1 <= line_width 1.
Proof.
  apply (render_positive_size 1 (mkImage 1 1 (fun _ _ => (0, 0, 0, 0)))).
  - lia.
  - reflexivity.
Defined.

(** C6, as the specification states it, fails: for size -5 the call
    raises the [ValueError] of [Image.new]; no [InvalidSizeError] exists
    in the script. *)
Lemma invalid_size_error_counterexample :
  ~ (forall (size : Z) (filename : string) (w : World),
       size <= 0 ->
       create_icon size filename w = (Raise InvalidSizeError, w)).
Proof.
  intros H. specialize (H (-5) "icon.png" empty_world ltac:(lia)).
  rewrite create_icon_negative in H by lia. discriminate H.
Qed.

(** C6, amended: for every negative size [create_icon] fails with the
    [ValueError] that [Image.new] raises, before any drawing, write or
    print: the world is left as it was, so no output file is produced. *)
Theorem negative_size_value_error (size : Z) (filename : string) (w : World) :
  size < 0 ->
  render size = Raise ValueError /\
  create_icon size filename w = (Raise ValueError, w).
Proof.
  intros Hs. split; [by apply render_negative | by apply create_icon_negative].
Qed.

Lemma negative_size_value_error_witness :
  render (-5) = Raise ValueError /\
  create_icon (-5) "icon.png" empty_world = (Raise ValueError, empty_world).
Proof.
  apply (negative_size_value_error (-5) "icon.png" empty_world). lia.
Defined.






(** C9: run where its four paths can be written, [main] leaves exactly
    the four files [icon16.png], [icon32.png], [icon48.png] and
    [icon128.png] behind, each holding the icon of its size, and prints
    five lines: one [Created ...] line per size in the order 16, 32, 48,
    128, then the summary line. *)
Theorem main_output (w : World) :
  (forall s, In s sizes -> writable w (icon_name s) = true) ->
  exists i16 i32 i48 i128 w',
    render 16 = Ok i16 /\ render 32 = Ok i32 /\
    render 48 = Ok i48 /\ render 128 = Ok i128 /\
    main w = (Ok tt, w') /\
    files w' =
      <["icon128.png" := PNG i128]>
        (<["icon48.png" := PNG i48]>
           (<["icon32.png" := PNG i32]>
              (<["icon16.png" := PNG i16]> (files w)))) /\
    dom (files w') =
      {[ "icon16.png"; "icon32.png"; "icon48.png"; "icon128.png" ]}
      ∪ dom (files w) /\
    stdout w' =
      stdout w ++ [ "Created icon16.png (16x16)";
                    "Created icon32.png (32x32)";
                    "Created icon48.png (48x48)";
                    "Created icon128.png (128x128)";
                    "All icons created successfully!" ].
Proof.
  intros Hw.
  destruct (render_ok 16 ltac:(lia)) as [i16 H16].
  destruct (render_ok 32 ltac:(lia)) as [i32 H32].
  destruct (render_ok 48 ltac:(lia)) as [i48 H48].
  destruct (render_ok 128 ltac:(lia)) as [i128 H128].
  exists i16, i32, i48, i128.
  pose proof (Hw 16 ltac:(simpl; auto)) as W16.
  pose proof (Hw 32 ltac:(simpl; auto)) as W32.
  pose proof (Hw 48 ltac:(simpl; auto)) as W48.
  pose proof (Hw 128 ltac:(simpl; auto)) as W128.
  pose proof (create_icon_Ok 16 (icon_name 16) w i16 ltac:(lia) H16 W16) as E1.
  set (w1 := mkWorld _ _ _) in E1.
  pose proof (create_icon_Ok 32 (icon_name 32) w1 i32 ltac:(lia) H32 W32) as E2.
  set (w2 := mkWorld _ _ _) in E2.
  pose proof (create_icon_Ok 48 (icon_name 48) w2 i48 ltac:(lia) H48 W48) as E3.
  set (w3 := mkWorld _ _ _) in E3.
  pose proof (create_icon_Ok 128 (icon_name 128) w3 i128 ltac:(lia) H128 W128) as E4.
  set (w4 := mkWorld _ _ _) in E4.
  exists (mkWorld (files w4) (writable w4)
                  (stdout w4 ++ ["All icons created successfully!"])).
  do 4 (split; [assumption|]).
  split.
  - unfold main, sizes. cbn [for_]. cbv zeta.
    apply bind_Ok_then with (a := tt) (w' := w4); [|reflexivity].
    rewrite (bind_Ok _ _ w w1 tt E1).
    rewrite (bind_Ok _ _ w1 w2 tt E2).
    rewrite (bind_Ok _ _ w2 w3 tt E3).
    rewrite (bind_Ok _ _ w3 w4 tt E4).
    reflexivity.
  - unfold w4, w3, w2, w1; cbn [files stdout].
    split; [reflexivity|]. split.
    + change (icon_name 16) with "icon16.png".
      change (icon_name 32) with "icon32.png".
      change (icon_name 48) with "icon48.png".
      change (icon_name 128) with "icon128.png".
      rewrite !dom_insert_L. apply set_eq. intros k.
      rewrite !elem_of_union. tauto.
    + by rewrite <- !app_assoc.
Qed.

Lemma main_output_witness :
  exists i16 i32 i48 i128 w',
    render 16 = Ok i16 /\ render 32 = Ok i32 /\
    render 48 = Ok i48 /\ render 128 = Ok i128 /\
    main empty_world = (Ok tt, w') /\
    files w' =
      <["icon128.png" := PNG i128]>
        (<["icon48.png" := PNG i48]>
           (<["icon32.png" := PNG i32]>
              (<["icon16.png" := PNG i16]> (files empty_world)))) /\
    dom (files w') =
      {[ "icon16.png"; "icon32.png"; "icon48.png"; "icon128.png" ]}
      ∪ dom (files empty_world) /\
    stdout w' =
      stdout empty_world ++ [ "Created icon16.png (16x16)";
                              "Created icon32.png (32x32)";
                              "Created icon48.png (48x48)";
                              "Created icon128.png (128x128)";
                              "All icons created successfully!" ].
Proof.
  apply (main_output empty_world). intros s _. reflexivity.
Defined.

(** C10: for every size in {16, 32, 48, 128} every white shape (the two
    bars, and the two strokes of the X grown by their thickness) lies in
    the panel's bounding box, and every pixel painted white was painted
    with the opaque panel colour before: white never lands on the
    transparent background. *)
Theorem white_within_panel (s : Z) :
  In s sizes ->
  Forall (fun b => box_within b (panel_box s) = true) (white_boxes s) /\
  exists img0 img1,
    Image_new (s, s) (0, 0, 0, 0) = Ok img0 /\
    rounded_rectangle img0 (panel_box s) (radius s) (ink_of_rgb bg_color)
      = Ok img1 /\
    forall x y,
      in_white s x y = true ->
      in_box (panel_box s) x y = true /\
      px img1 x y = (102, 126, 234, 255).
Proof.
  intros Hs. pose proof (sizes_nonneg s Hs) as Hpos.
  pose proof (geometry_nonneg s ltac:(lia)) as G.
  split.
  { pose proof (white_boxes_within s Hs) as Hb.
    apply Is_true_true, forallb_True in Hb.
    eapply Forall_impl; [exact Hb|]. intros b Hb'. by apply Is_true_true. }
  rewrite Image_new_square by (by apply sizes_bounded).
  eexists. unfold panel_box at 1.
  destruct (rounded_rectangle_ok
              (mkImage s s (fun _ _ => (0, 0, 0, 0)))
              (margin s) (margin s) (s - margin s) (s - margin s)
              (radius s) (ink_of_rgb bg_color)) as [i1 H1]; [lia..|].
  exists i1. split; [reflexivity|]. split; [exact H1|].
  intros x y Hw. split; [by apply in_white_box|].
  apply rounded_rectangle_painted in H1 as (_ & _ & Hpx).
  rewrite Hpx. apply in_white_panel in Hw; [|done].
  unfold in_panel, panel_box in Hw. by rewrite Hw.
Qed.

Lemma white_within_panel_witness :
  Forall (fun b => box_within b (panel_box 16) = true) (white_boxes 16) /\
  exists img0 img1,
    Image_new (16, 16) (0, 0, 0, 0) = Ok img0 /\
    rounded_rectangle img0 (panel_box 16) (radius 16) (ink_of_rgb bg_color)
      = Ok img1 /\
    forall x y,
      in_white 16 x y = true ->
      in_box (panel_box 16) x y = true /\
      px img1 x y = (102, 126, 234, 255).
Proof.
  apply (white_within_panel 16). simpl; auto.
Defined.

(** * Further properties of the script *)

(** ** The outcome of [create_icon] *)

(** X2: [create_icon] touches no path but its own, never changes which
    paths can be written, and only ever appends to the console, whether
    it returns or raises. *)
Theorem create_icon_frame (size : Z) (filename : string) (w : World) :
  (forall other, other <> filename ->
     files (snd (create_icon size filename w)) !! other = files w !! other) /\
  writable (snd (create_icon size filename w)) = writable w /\
  exists lines, stdout (snd (create_icon size filename w)) = stdout w ++ lines.
Proof.
  unfold create_icon, bind, lift, save, print.
  destruct (render size) as [img|e]; cbn.
  2: { repeat split; [exists []; by rewrite app_nil_r]. }
  destruct (writable w filename); cbn.
  2: { repeat split; [exists []; by rewrite app_nil_r]. }
  destruct ((width img =? 0) || (height img =? 0)); cbn.
  - destruct (files w !! filename) eqn:Hf; cbn.
    + repeat split; [|exists []; by rewrite app_nil_r].
      intros other Hne. by rewrite lookup_insert_ne.
    + repeat split; [exists []; by rewrite app_nil_r].
  - repeat split; [|eauto].
    intros other Hne. by rewrite lookup_insert_ne.
Qed.

Lemma create_icon_frame_witness :
  (forall other, other <> "b.png" ->
     files (snd (create_icon 16 "b.png" other_world)) !! other
     = files other_world !! other) /\
  writable (snd (create_icon 16 "b.png" other_world)) = writable other_world /\
  exists lines,
    stdout (snd (create_icon 16 "b.png" other_world))
    = stdout other_world ++ lines.
Proof.
  apply (create_icon_frame 16 "b.png" other_world).
Defined.

(** ** File names *)

Lemma list_ascii_append (s1 s2 : string) :
  String.list_ascii_of_string (s1 +:+ s2)
  = String.list_ascii_of_string s1 ++ String.list_ascii_of_string s2.
Proof.
  induction s1 as [|a s1 IH]; [done|].
  change (String a s1 +:+ s2) with (String a (s1 +:+ s2)).
  cbn. by f_equal.
Qed.

Lemma append_inj_r (s1 s2 t : string) : s1 +:+ t = s2 +:+ t -> s1 = s2.
Proof.
  intros H. apply (f_equal String.list_ascii_of_string) in H.
  rewrite !list_ascii_append in H. apply app_inv_tail in H.
  rewrite <- (String.string_of_list_ascii_of_string s1),
          <- (String.string_of_list_ascii_of_string s2).
  by rewrite H.
Qed.

Lemma icon_name_inj (s1 s2 : Z) : icon_name s1 = icon_name s2 -> s1 = s2.
Proof.
  unfold icon_name, str. intros H.
  apply (inj (String.append "icon")) in H.
  apply append_inj_r in H. by apply (inj pretty) in H.
Qed.

(** X4: different sizes are saved under different names, whatever the
    sizes are: no icon of one size can overwrite the icon of another. *)
Theorem icon_names_differ (s1 s2 : Z) :
  s1 <> s2 -> icon_name s1 <> icon_name s2.
Proof. intros Hne Heq. by apply Hne, icon_name_inj. Qed.

Lemma icon_names_differ_witness : icon_name 16 <> icon_name 128.
Proof. apply (icon_names_differ 16 128). lia. Defined.

(** ** The loop of [main] *)

Lemma main_unfold (w : World) :
  main w =
  bind (for_ sizes make_icon)
       (fun _ => print "All icons created successfully!") w.
Proof. reflexivity. Qed.

Lemma for_app {A : Type} (l1 l2 : list A) (body : A -> M unit) (w : World) :
  for_ (l1 ++ l2) body w = bind (for_ l1 body) (fun _ => for_ l2 body) w.
Proof.
  revert w. induction l1 as [|x l1 IH]; intros w; [done|].
  cbn [app for_]. unfold bind.
  destruct (body x w) as [[[]|e] w']; [|done].
  rewrite IH. reflexivity.
Qed.

Lemma make_icon_Ok (s : Z) (w : World) :
  0 < s <= 536870910 -> writable w (icon_name s) = true ->
  exists img,
    render s = Ok img /\
    make_icon s w =
      (Ok tt, mkWorld (<[icon_name s := PNG img]> (files w)) (writable w)
                      (stdout w ++ [created (icon_name s) s])).
Proof.
  intros Hs Hw. destruct (render_ok s ltac:(lia)) as [img Hr].
  exists img. split; [done|]. apply create_icon_Ok; [lia | done | done].
Qed.

(** A run of the loop over positive sizes whose paths can all be opened:
    it returns, prints one line per size in order, stores each size's
    image under its name and touches no other path. *)
Lemma for_make_icon_Ok (l : list Z) :
  forall w : World,
    (forall s, s ∈ l -> 0 < s <= 536870910
                        /\ writable w (icon_name s) = true) ->
    exists w',
      for_ l make_icon w = (Ok tt, w') /\
      writable w' = writable w /\
      stdout w' = stdout w ++ (created_icon <$> l) /\
      (forall f, f ∉ icon_name <$> l -> files w' !! f = files w !! f) /\
      (forall s img, s ∈ l -> render s = Ok img ->
                     files w' !! icon_name s = Some (PNG img)).
Proof.
  induction l as [|s l IH]; intros w Hall.
  - exists w. cbn. rewrite app_nil_r. repeat split.
    intros s img Hs. by apply elem_of_nil in Hs.
  - destruct (Hall s ltac:(left)) as [Hs Hw].
    destruct (make_icon_Ok s w Hs Hw) as (img & Hr & E).
    set (w1 := mkWorld _ _ _) in E.
    destruct (IH w1) as (w' & Hrun & Hwr & Hout & Hframe & Hfiles).
    { intros s' Hs'. apply Hall. by right. }
    exists w'. cbn [for_]. rewrite (bind_Ok _ _ w w1 tt E).
    split; [done|]. split; [done|]. split.
    { rewrite Hout. unfold w1; cbn [stdout]. by rewrite <- app_assoc. }
    split.
    + intros f Hf. rewrite fmap_cons, not_elem_of_cons in Hf.
      destruct Hf as [Hne Hf]. rewrite (Hframe f Hf).
      unfold w1; cbn [files]. by rewrite lookup_insert_ne.
    + intros s' img' Hs' Hr'.
      destruct (decide (s' ∈ l)) as [Hin|Hnin]; [by apply Hfiles|].
      apply elem_of_cons in Hs' as [->|?]; [|done].
      rewrite Hframe.
      * unfold w1; cbn [files]. rewrite lookup_insert_eq. congruence.
      * intros Hf. apply list_elem_of_fmap in Hf as (s'' & Heq & Hin).
        apply icon_name_inj in Heq as ->. done.
Qed.

Lemma sizes_positive (s : Z) : s ∈ sizes -> 0 < s <= 536870910.
Proof.
  intros Hs%list_elem_of_In.
  pose proof (sizes_nonneg s Hs). pose proof (sizes_bounded s Hs). lia.
Qed.

(** The four names of [main] hold no NUL character: what [open] raises on
    them is [OSError]. *)
Lemma open_error_icon (s : Z) : s ∈ sizes -> open_error (icon_name s) = OSError.
Proof.
  intros Hs%list_elem_of_In.
  destruct Hs as [<-|[<-|[<-|[<-|[]]]]]; reflexivity.
Qed.

(** A whole run of [main] where the four paths can be opened. *)
Lemma main_Ok (w : World) :
  (forall s, s ∈ sizes -> writable w (icon_name s) = true) ->
  exists w',
    main w = (Ok tt, w') /\
    writable w' = writable w /\
    stdout w' = stdout w ++ (created_icon <$> sizes)
                         ++ ["All icons created successfully!"] /\
    (forall f, f ∉ icon_name <$> sizes -> files w' !! f = files w !! f) /\
    (forall s img, s ∈ sizes -> render s = Ok img ->
                   files w' !! icon_name s = Some (PNG img)).
Proof.
  intros Hw.
  destruct (for_make_icon_Ok sizes w) as (w1 & Hrun & Hwr & Hout & Hfr & Hfi).
  { intros s Hs. split; [by apply sizes_positive | by apply Hw]. }
  exists (mkWorld (files w1) (writable w1)
                  (stdout w1 ++ ["All icons created successfully!"])).
  rewrite main_unfold, (bind_Ok _ _ w w1 tt Hrun). cbn.
  repeat split; [done | by rewrite Hout, <- app_assoc | done | done].
Qed.

(** X5: [main] stops at the first path it cannot open.  The icons before
    it are stored and announced, the [OSError] of [save] ends the run,
    and neither the failing icon, nor any later one, nor the closing line
    appears. *)
Theorem main_stops_at_first_failure
    (w : World) (before after : list Z) (s : Z) :
  sizes = before ++ s :: after ->
  (forall p, p ∈ before -> writable w (icon_name p) = true) ->
  writable w (icon_name s) = false ->
  exists w',
    main w = (Raise OSError, w') /\
    stdout w' = stdout w ++ (created_icon <$> before) /\
    (forall p img, p ∈ before -> render p = Ok img ->
                   files w' !! icon_name p = Some (PNG img)) /\
    (forall f, f ∉ icon_name <$> before -> files w' !! f = files w !! f).
Proof.
  intros Hsplit Hbefore Hs.
  assert (Hin : forall p, p ∈ before ++ s :: after -> p ∈ sizes).
  { intros p Hp. by rewrite Hsplit. }
  assert (Hsin : s ∈ sizes).
  { apply Hin, elem_of_app. right. by left. }
  destruct (for_make_icon_Ok before w) as (w1 & Hrun & Hwr & Hout & Hfr & Hfi).
  { intros p Hp. split; [|by apply Hbefore].
    apply sizes_positive, Hin, elem_of_app. by left. }
  exists w1. split; [|done].
  destruct (render_ok s) as [img Hr].
  { pose proof (sizes_positive s Hsin). lia. }
  rewrite main_unfold, Hsplit.
  unfold bind at 1. rewrite for_app, (bind_Ok _ _ w w1 tt Hrun).
  cbn [for_]. unfold bind, make_icon.
  rewrite (create_icon_unwritable s (icon_name s) w1 img Hr)
    by (by rewrite Hwr).
  by rewrite (open_error_icon s Hsin).
Qed.

Lemma main_stops_at_first_failure_witness :
  exists w',
    main one_icon_world = (Raise OSError, w') /\
    stdout w' = stdout one_icon_world ++ (created_icon <$> [16]) /\
    (forall p img, p ∈ [16] -> render p = Ok img ->
                   files w' !! icon_name p = Some (PNG img)) /\
    (forall f, f ∉ icon_name <$> [16] ->
               files w' !! f = files one_icon_world !! f).
Proof.
  apply (main_stops_at_first_failure one_icon_world [16] [48; 128] 32).
  - reflexivity.
  - intros p Hp. apply list_elem_of_singleton in Hp as ->. reflexivity.
  - reflexivity.
Defined.

(** X6: after a run of [main] where the four paths can be opened, each
    file [icon{s}.png] holds the canvas drawn for the size [s], which is
    [s] pixels wide and [s] pixels high, and no other path has changed. *)
Theorem main_files (w : World) :
  (forall s, In s sizes -> writable w (icon_name s) = true) ->
  (forall s, In s sizes ->
     exists img,
       render s = Ok img /\
       files (snd (main w)) !! icon_name s = Some (PNG img) /\
       width img = s /\ height img = s) /\
  (forall f, ~ In f (map icon_name sizes) ->
     files (snd (main w)) !! f = files w !! f).
Proof.
  intros Hw.
  destruct (main_Ok w) as (w' & -> & _ & _ & Hfr & Hfi).
  { intros s Hs. by apply Hw, list_elem_of_In. }
  cbn [snd]. split.
  - intros s Hs. destruct (render_sizes s Hs) as [img Hr].
    exists img. split; [done|].
    split; [apply Hfi; [by apply list_elem_of_In | done]|].
    destruct (render_spec s img Hr) as (Hwd & Hht & _). done.
  - intros f Hf. apply Hfr. by rewrite list_elem_of_In.
Qed.

Lemma main_files_witness :
  (forall s, In s sizes ->
     exists img,
       render s = Ok img /\
       files (snd (main empty_world)) !! icon_name s = Some (PNG img) /\
       width img = s /\ height img = s) /\
  (forall f, ~ In f (map icon_name sizes) ->
     files (snd (main empty_world)) !! f = files empty_world !! f).
Proof.
  apply (main_files empty_world). intros s _. reflexivity.
Defined.

(** X7: running [main] a second time overwrites the four files with the
    same images: the files after the second run are the files after the
    first, and the console holds the five lines once more. *)
Theorem main_twice (w : World) :
  (forall s, In s sizes -> writable w (icon_name s) = true) ->
  exists w1 w2,
    main w = (Ok tt, w1) /\ main w1 = (Ok tt, w2) /\
    files w2 = files w1 /\
    stdout w2 = stdout w1 ++ (created_icon <$> sizes)
                          ++ ["All icons created successfully!"].
Proof.
  intros Hw.
  destruct (main_Ok w) as (w1 & E1 & Hwr1 & _ & _ & Hfi1).
  { intros s Hs. by apply Hw, list_elem_of_In. }
  destruct (main_Ok w1) as (w2 & E2 & _ & Hout2 & Hfr2 & Hfi2).
  { intros s Hs. rewrite Hwr1. by apply Hw, list_elem_of_In. }
  exists w1, w2. repeat split; [done | done | | done].
  apply map_eq. intros f.
  destruct (decide (f ∈ icon_name <$> sizes)) as [Hin|Hnin]; [|by apply Hfr2].
  apply list_elem_of_fmap in Hin as (s & -> & Hs).
  destruct (render_ok s) as [img Hr].
  { pose proof (sizes_positive s Hs). lia. }
  by rewrite (Hfi1 s img Hs Hr), (Hfi2 s img Hs Hr).
Qed.

Lemma main_twice_witness :
  exists w1 w2,
    main empty_world = (Ok tt, w1) /\ main w1 = (Ok tt, w2) /\
    files w2 = files w1 /\
    stdout w2 = stdout w1 ++ (created_icon <$> sizes)
                          ++ ["All icons created successfully!"].
Proof.
  apply (main_twice empty_world). intros s _. reflexivity.
Defined.

(** ** The picture at every size *)

Lemma getpixel_render (size : Z) (img : Image) (x y : Z) :
  render size = Ok img -> 0 <= x < size -> 0 <= y < size ->
  getpixel img x y = Some (icon_px size x y).
Proof.
  intros Hr Hx Hy. destruct (render_spec size img Hr) as (Hwd & Hht & Hpx).
  unfold getpixel. rewrite Hwd, Hht, Hpx.
  destruct (Z.leb_spec 0 x); [|lia]. destruct (Z.ltb_spec x size); [|lia].
  destruct (Z.leb_spec 0 y); [|lia]. destruct (Z.ltb_spec y size); [|lia].
  reflexivity.
Qed.

Lemma getpixel_render_inv (size : Z) (img : Image) (x y : Z) (c : RGBA) :
  render size = Ok img -> getpixel img x y = Some c ->
  0 <= x < size /\ 0 <= y < size /\ c = icon_px size x y.
Proof.
  intros Hr. destruct (render_spec size img Hr) as (Hwd & Hht & Hpx).
  unfold getpixel. rewrite Hwd, Hht, Hpx.
  destruct (Z.leb_spec 0 x); [|discriminate].
  destruct (Z.ltb_spec x size); [|discriminate].
  destruct (Z.leb_spec 0 y); [|discriminate].
  destruct (Z.ltb_spec y size); [|discriminate].
  cbn [andb]. intros [= <-]. repeat split; lia.
Qed.

(** X8: at every positive size for which [Image.new] returns the canvas,
    not only the four of [main], the pixel at [(size // 2, size // 2)]
    lies on both bars of the grid, is white as soon as the vertical bar is
    drawn, and is opaque white in the finished image. *)
Theorem center_white_any_size (size : Z) (img0 : Image) :
  0 < size ->
  Image_new (size, size) (0, 0, 0, 0) = Ok img0 ->
  exists img1 img2 img,
    rounded_rectangle img0 (panel_box size) (radius size)
                      (ink_of_rgb bg_color) = Ok img1 /\
    rectangle img1 (vbar_box size) white = Ok img2 /\
    in_box (vbar_box size) (center size) (center size) = true /\
    in_box (hbar_box size) (center size) (center size) = true /\
    getpixel img2 (center size) (center size) = Some (255, 255, 255, 255) /\
    render size = Ok img /\
    getpixel img (center size) (center size) = Some (255, 255, 255, 255).
Proof.
  intros Hs H0. pose proof (geometry_nonneg size ltac:(lia)) as G.
  destruct (render_of_canvas size _ img0 H0) as [img Hr].
  destruct (render_stages size img Hr)
    as (i0 & i1 & i2 & _ & _ & H0' & H1 & H2 & _).
  assert (i0 = img0) as -> by congruence.
  exists i1, i2, img.
  assert (Hh : 0 <= line_width size / 2) by (apply Z.div_pos; lia).
  assert (Hc : grid_margin size <= center size <= size - grid_margin size
               /\ 0 <= center size < size).
  { unfold grid_margin, center. Z.div_mod_to_equations. lia. }
  assert (Hv : in_box (vbar_box size) (center size) (center size) = true)
    by (unfold vbar_box; apply in_box_true; lia).
  assert (Hb : in_box (hbar_box size) (center size) (center size) = true)
    by (unfold hbar_box; apply in_box_true; lia).
  destruct (panel_stage size img0 i1 H0 H1) as (Hw1 & Hh1 & _).
  destruct (rectangle_painted i1 i2 white (vbar_box size) H2)
    as (Hw2 & Hh2 & Hp2).
  repeat split; [done..| | done |].
  - unfold getpixel. rewrite Hw2, Hh2, Hw1, Hh1, Hp2, Hv.
    destruct (Z.leb_spec 0 (center size)); [|lia].
    destruct (Z.ltb_spec (center size) size); [|lia]. done.
  - rewrite (getpixel_render size img) by (done || lia).
    unfold icon_px, in_white. by rewrite Hv.
Qed.

Lemma center_white_any_size_witness :
  exists img1 img2 img,
    rounded_rectangle (mkImage 1 1 (fun _ _ => (0, 0, 0, 0)))
                      (panel_box 1) (radius 1)
                      (ink_of_rgb bg_color) = Ok img1 /\
    rectangle img1 (vbar_box 1) white = Ok img2 /\
    in_box (vbar_box 1) (center 1) (center 1) = true /\
    in_box (hbar_box 1) (center 1) (center 1) = true /\
    getpixel img2 (center 1) (center 1) = Some (255, 255, 255, 255) /\
    render 1 = Ok img /\
    getpixel img (center 1) (center 1) = Some (255, 255, 255, 255).
Proof.
  apply (center_white_any_size 1 (mkImage 1 1 (fun _ _ => (0, 0, 0, 0)))).
  - lia.
  - reflexivity.
Defined.

(** The point where the strokes of the X are meant to cross lies on
    both of them. *)
Lemma in_line_cross (xc yc k w : Z) :
  0 <= k -> 0 <= w ->
  in_line (xc - k, yc - k, xc + k, yc + k) w xc yc = true /\
  in_line (xc - k, yc + k, xc + k, yc - k) w xc yc = true.
Proof.
  intros Hk Hw. unfold in_line.
  destruct (Z.eqb_spec k 0) as [->|Hne].
  - replace (xc + 0 - (xc - 0)) with 0 by lia.
    replace (yc + 0 - (yc - 0)) with 0 by lia.
    replace (yc - 0 - (yc + 0)) with 0 by lia.
    cbn. rewrite !Z.sub_0_r, Z.add_0_r, !Z.eqb_refl. done.
  - replace (xc + k - (xc - k)) with (2 * k) by lia.
    replace (yc + k - (yc - k)) with (2 * k) by lia.
    replace (yc - k - (yc + k)) with (- (2 * k)) by lia.
    replace (xc - (xc - k)) with k by lia.
    replace (yc - (yc - k)) with k by lia.
    replace (yc - (yc + k)) with (- k) by lia.
    destruct (Z.eqb_spec (2 * k) 0); [lia|].
    destruct (Z.eqb_spec (- (2 * k)) 0); [lia|]. cbn [andb].
    rewrite !andb_true_iff, !Z.leb_le. nia.
Qed.

(** X9: at every positive size for which [Image.new] returns the canvas,
    the centre of the X,
    [(size // 2 + size // 8, size // 2 - size // 8)], is a pixel of the
    image, lies on both strokes, and is opaque white; it is right of and
    above the centre of the grid (or on it, when [size // 8] is 0). *)
Theorem glyph_center_white (size : Z) (img0 : Image) :
  0 < size ->
  Image_new (size, size) (0, 0, 0, 0) = Ok img0 ->
  exists img,
    render size = Ok img /\
    center size <= x_center_x size /\ x_center_y size <= center size /\
    in_line (x_line1 size) (line_width size)
            (x_center_x size) (x_center_y size) = true /\
    in_line (x_line2 size) (line_width size)
            (x_center_x size) (x_center_y size) = true /\
    getpixel img (x_center_x size) (x_center_y size)
      = Some (255, 255, 255, 255).
Proof.
  intros Hs H0. pose proof (geometry_nonneg size ltac:(lia)) as G.
  destruct (render_of_canvas size _ img0 H0) as [img Hr]. exists img.
  destruct (in_line_cross (x_center_x size) (x_center_y size)
              (x_size size) (line_width size)) as [H1 H2]; [lia..|].
  assert (Hc : center size <= x_center_x size < size
               /\ 0 <= x_center_y size <= center size
               /\ center size < size).
  { unfold x_center_x, x_center_y, center. Z.div_mod_to_equations. lia. }
  repeat split; [done | lia | lia | done | done |].
  rewrite (getpixel_render size img) by (done || lia).
  unfold icon_px, in_white, x_line1. rewrite H1. by rewrite orb_true_r.
Qed.

Lemma glyph_center_white_witness :
  exists img,
    render 3 = Ok img /\
    center 3 <= x_center_x 3 /\ x_center_y 3 <= center 3 /\
    in_line (x_line1 3) (line_width 3) (x_center_x 3) (x_center_y 3) = true /\
    in_line (x_line2 3) (line_width 3) (x_center_x 3) (x_center_y 3) = true /\
    getpixel img (x_center_x 3) (x_center_y 3) = Some (255, 255, 255, 255).
Proof.
  apply (glyph_center_white 3 (mkImage 3 3 (fun _ _ => (0, 0, 0, 0)))).
  - lia.
  - reflexivity.
Defined.

(** From size 2 on, the bars and the strokes grown by their thickness lie
    in the panel's bounding box. *)
Lemma white_boxes_within_from_2 (size : Z) :
  2 <= size ->
  forallb (fun b => box_within b (panel_box size)) (white_boxes size) = true.
Proof.
  intros Hs. pose proof (geometry_nonneg size ltac:(lia)) as G.
  assert (Hh : 0 <= line_width size / 2 /\ 2 * (line_width size / 2) <= line_width size)
    by (Z.div_mod_to_equations; lia).
  assert (Hb : margin size <= center size - line_width size / 2
               /\ center size + line_width size / 2 <= size - margin size
               /\ margin size <= grid_margin size
               /\ margin size <= x_center_y size - x_size size - line_width size
               /\ margin size <= x_center_x size - x_size size - line_width size
               /\ x_center_x size + x_size size + line_width size <= size - margin size
               /\ x_center_y size + x_size size + line_width size <= size - margin size).
  { revert Hh. unfold margin, center, grid_margin, x_center_x, x_center_y,
      x_size, line_width, center.
    destruct (Z.max_spec 1 (size / 16)) as [[? ->]|[? ->]];
      intros Hh; Z.div_mod_to_equations; lia. }
  unfold white_boxes, vbar_box, hbar_box, x_line1, x_line2, grow, panel_box,
    box_within.
  cbn [forallb]. rewrite !andb_true_iff, !in_box_true. lia.
Qed.

Lemma in_white_box_of (size x y : Z) :
  forallb (fun b => box_within b (panel_box size)) (white_boxes size) = true ->
  in_white size x y = true -> in_box (panel_box size) x y = true.
Proof.
  intros Hb. unfold white_boxes in Hb; cbn [forallb] in Hb.
  rewrite !andb_true_iff in Hb. destruct Hb as (Hv & Hh & H1 & H2 & _).
  assert (Hw : 0 <= line_width size) by (unfold line_width; lia).
  unfold in_white. rewrite !orb_true_iff. intros [[[H|H]|H]|H].
  - by apply (box_within_in_box _ _ _ _ Hv).
  - by apply (box_within_in_box _ _ _ _ Hh).
  - by apply (box_within_in_box _ _ _ _ H1), in_line_grow.
  - by apply (box_within_in_box _ _ _ _ H2), in_line_grow.
Qed.

(** X10: at every positive size for which [Image.new] returns the
    canvas, every pixel of the image outside the panel's bounding box
    [[margin, size - margin]] squared is fully transparent: nothing is
    ever drawn in the margin. *)
Theorem margin_transparent_any_size (size : Z) (img0 : Image) :
  0 < size ->
  Image_new (size, size) (0, 0, 0, 0) = Ok img0 ->
  exists img,
    render size = Ok img /\
    forall x y c,
      getpixel img x y = Some c ->
      in_box (panel_box size) x y = false ->
      c = (0, 0, 0, 0).
Proof.
  intros Hs H0. destruct (render_of_canvas size _ img0 H0) as [img Hr].
  exists img. split; [done|]. intros x y c Hget Hout.
  apply (getpixel_render_inv size img) in Hget as (Hx & Hy & ->); [|done].
  destruct (Z.eq_dec size 1) as [->|Hne].
  { assert (x = 0) as -> by lia. assert (y = 0) as -> by lia.
    discriminate Hout. }
  assert (Hp : in_panel size x y = false).
  { destruct (in_panel size x y) eqn:Hp; [|done].
    apply in_panel_box in Hp; [congruence | lia]. }
  assert (Hw : in_white size x y = false).
  { destruct (in_white size x y) eqn:Hw; [|done].
    apply in_white_box_of in Hw; [congruence|].
    apply white_boxes_within_from_2. lia. }
  unfold icon_px. by rewrite Hw, Hp.
Qed.

Lemma margin_transparent_any_size_witness :
  exists img,
    render 20 = Ok img /\
    forall x y c,
      getpixel img x y = Some c ->
      in_box (panel_box 20) x y = false ->
      c = (0, 0, 0, 0).
Proof.
  apply (margin_transparent_any_size 20
           (mkImage 20 20 (fun _ _ => (0, 0, 0, 0)))).
  - lia.
  - reflexivity.
Defined.

(** X11: at every size that is not negative, the X stays in the
    upper-right quadrant: every pixel of either stroke lies within
    [line_width] of the square that spans from the centre of the grid
    [2 * (size // 8)] pixels to the right and upwards. *)
Theorem glyph_in_upper_right (size x y : Z) :
  0 <= size ->
  in_line (x_line1 size) (line_width size) x y = true \/
  in_line (x_line2 size) (line_width size) x y = true ->
  center size - line_width size <= x
    <= center size + 2 * x_size size + line_width size /\
  center size - 2 * x_size size - line_width size <= y
    <= center size + line_width size.
Proof.
  intros Hs H. pose proof (geometry_nonneg size Hs) as G.
  assert (Hw : 0 <= line_width size) by lia.
  assert (Hb : in_box (grow (line_width size) (x_line1 size)) x y = true
               \/ in_box (grow (line_width size) (x_line2 size)) x y = true).
  { destruct H as [H|H]; [left|right]; by apply in_line_grow. }
  unfold x_line1, x_line2, grow in Hb. rewrite !in_box_true in Hb.
  unfold x_center_x, x_center_y, x_size in *. lia.
Qed.

Lemma glyph_in_upper_right_witness :
  center 16 - line_width 16 <= 9
    <= center 16 + 2 * x_size 16 + line_width 16 /\
  center 16 - 2 * x_size 16 - line_width 16 <= 5
    <= center 16 + line_width 16.
Proof.
  apply (glyph_in_upper_right 16 9 5).
  - lia.
  - left. reflexivity.
Defined.

(** X12: at every size for which [Image.new] returns the canvas, the
    finished image has three colours only: each pixel is fully
    transparent, the opaque panel colour (102, 126, 234), or opaque
    white.  No pixel is partly transparent. *)
Theorem three_colours (size : Z) (img0 : Image) :
  Image_new (size, size) (0, 0, 0, 0) = Ok img0 ->
  exists img,
    render size = Ok img /\
    forall x y c,
      getpixel img x y = Some c ->
      c = (0, 0, 0, 0) \/ c = (102, 126, 234, 255) \/ c = (255, 255, 255, 255).
Proof.
  intros H0. destruct (render_of_canvas size _ img0 H0) as [img Hr].
  exists img. split; [done|]. intros x y c Hget.
  apply (getpixel_render_inv size img) in Hget as (_ & _ & ->); [|done].
  unfold icon_px.
  destruct (in_white size x y); [auto|].
  destruct (in_panel size x y); auto.
Qed.

Lemma three_colours_witness :
  exists img,
    render 16 = Ok img /\
    forall x y c,
      getpixel img x y = Some c ->
      c = (0, 0, 0, 0) \/ c = (102, 126, 234, 255) \/ c = (255, 255, 255, 255).
Proof.
  apply (three_colours 16 (mkImage 16 16 (fun _ _ => (0, 0, 0, 0)))).
  reflexivity.
Defined.

(** X13: on the four sizes of [main] the picture is oriented as drawn:
    the quarter points [(s/4, s/4)], [(s/4, 3s/4)] and [(3s/4, 3s/4)]
    show the opaque panel colour, while [(3s/4, s/4)], in the upper-right
    quadrant, is white: it is the tip of a stroke of the X. *)
Theorem quarter_points (s : Z) :
  In s sizes ->
  exists img,
    render s = Ok img /\
    getpixel img (s / 4) (s / 4) = Some (102, 126, 234, 255) /\
    getpixel img (s / 4) (3 * s / 4) = Some (102, 126, 234, 255) /\
    getpixel img (3 * s / 4) (3 * s / 4) = Some (102, 126, 234, 255) /\
    getpixel img (3 * s / 4) (s / 4) = Some (255, 255, 255, 255).
Proof.
  intros Hs. pose proof (sizes_nonneg s Hs) as Hpos.
  destruct (render_sizes s Hs) as [img Hr].
  exists img. split; [done|].
  rewrite !(getpixel_render s img) by (done || (Z.div_mod_to_equations; lia)).
  destruct Hs as [<-|[<-|[<-|[<-|[]]]]]; repeat split; reflexivity.
Qed.

Lemma quarter_points_witness :
  exists img,
    render 128 = Ok img /\
    getpixel img (128 / 4) (128 / 4) = Some (102, 126, 234, 255) /\
    getpixel img (128 / 4) (3 * 128 / 4) = Some (102, 126, 234, 255) /\
    getpixel img (3 * 128 / 4) (3 * 128 / 4) = Some (102, 126, 234, 255) /\
    getpixel img (3 * 128 / 4) (128 / 4) = Some (255, 255, 255, 255).
Proof.
  apply (quarter_points 128). simpl; auto.
Defined.

(** X14: for the sizes 2 to 5 both [size // 8] and [size // 6] are 0, so
    the panel is the plain square over the whole canvas: the image has no
    transparent pixel at all. *)
Theorem tiny_sizes_opaque (size : Z) :
  2 <= size <= 5 ->
  margin size = 0 /\ radius size = 0 /\
  exists img,
    render size = Ok img /\
    forall x y c, getpixel img x y = Some c -> alpha c = 255.
Proof.
  intros Hs.
  assert (Hm : margin size = 0) by (unfold margin; apply Z.div_small; lia).
  assert (Hrad : radius size = 0) by (unfold radius; apply Z.div_small; lia).
  repeat split; [done..|].
  destruct (render_ok size ltac:(lia)) as [img Hr].
  exists img. split; [done|]. intros x y c Hget.
  apply (getpixel_render_inv size img) in Hget as (Hx & Hy & ->); [|done].
  assert (Hp : in_panel size x y = true).
  { unfold in_panel, panel_box, in_rounded_rectangle. rewrite Hm, Hrad.
    change (0 * 2) with 0. rewrite !Z.sub_0_r.
    assert (Hf : (size - 1 <=? 0) = false) by (apply Z.leb_gt; lia).
    rewrite Hf. cbn [andb]. rewrite Hf. cbn [Z.eqb].
    apply in_box_true. lia. }
  unfold icon_px. rewrite Hp. by destruct (in_white size x y).
Qed.

Lemma tiny_sizes_opaque_witness :
  margin 5 = 0 /\ radius 5 = 0 /\
  exists img,
    render 5 = Ok img /\
    forall x y c, getpixel img x y = Some c -> alpha c = 255.
Proof.
  apply (tiny_sizes_opaque 5). lia.
Defined.


